(** * gen_traps.py: the generator of the x86-64 trap trampolines

    The program prints an assembly file: one entry trampoline for each of
    the 256 interrupt vectors, followed by [trap_table], the table of their
    addresses.  This development embeds the generator ([TRAPS], [main]) with
    its output stream passed explicitly, reads the printed text back the way
    an assembler does (lines, statements, sections, routines) and proves the
    properties of the generated file. *)

From Stdlib Require Import String Ascii List Sorted Arith Bool Lia.
From Stdlib Require Import Decimal DecimalFacts DecimalNat DecimalString.
Import ListNotations.

Open Scope string_scope.
Open Scope list_scope.

(** ** The fragment of Python the generator uses *)

Module Py.

(** The only two control characters of the generated text, written
    backslash-t and backslash-n in the source. *)
Definition TAB : string := String "009"%char EmptyString.
Definition NL : string := String "010"%char EmptyString.

(** What the process can observe of its surroundings, and the stream it
    writes.  [main] reads none of [argv] and [environ]. *)
Record World : Type := mkWorld {
  argv : list string;
  environ : list (string * string);
  stdout : string
}.

(** A statement executed for its effect. *)
Definition proc : Type := World -> World.

(** [print(s)]: the text of [s] and a newline go to the end of the
    stream. *)
Definition print (s : string) : proc :=
  fun w => mkWorld (argv w) (environ w) (stdout w ++ s ++ NL).

Definition skip : proc := fun w => w.

Definition seq (p q : proc) : proc := fun w => q (p w).

(** [for x in xs: body]. *)
Fixpoint for_each {A : Type} (xs : list A) (body : A -> proc) : proc :=
  match xs with
  | [] => skip
  | x :: xs' => seq (body x) (for_each xs' body)
  end.

(** [if c: body], without an else branch. *)
Definition when (c : bool) (body : proc) : proc :=
  if c then body else skip.

(** [enumerate(xs)]. *)
Definition enumerate {A : Type} (xs : list A) : list (nat * A) :=
  combine (List.seq 0 (List.length xs)) xs.

(** [range(lo, hi)]. *)
Definition range (lo hi : nat) : list nat := List.seq lo (hi - lo).

(** [f"{i}"] for a non-negative int, which is all that [enumerate] and
    [range] produce here: the decimal digits, without leading zeros. *)
Definition str (i : nat) : string := NilZero.string_of_uint (Nat.to_uint i).

End Py.

Import Py.

Declare Scope proc_scope.
Delimit Scope proc_scope with proc.
Bind Scope proc_scope with proc.
Notation "p ;; q" := (seq p q) (at level 61, right associativity) : proc_scope.

(** ** The generator *)

Definition TRAPS : list (string * bool) := [
    ("division_error", false);
    ("debug", false);
    ("nmi", false);
    ("breakpoint", false);
    ("overflow", false);
    ("bound_range_exceeded", false);
    ("invalid_opcode", false);
    ("device_not_available", false);
    ("double_fault", true);
    ("coprocessor_segment_overrun", false);
    ("invalid_tss", true);
    ("segment_not_present", true);
    ("stack_segment_fault", true);
    ("general_protection_fault", true);
    ("page_fault", true);
    ("reserved15", false);
    ("x87_fp_exception", false);
    ("alignment_check", true);
    ("machine_check", false);
    ("simd_fp_exception", false);
    ("virtualization_exception", false);
    ("control_protection_exception", true);
    ("reserved22", false);
    ("reserved23", false);
    ("reserved24", false);
    ("reserved25", false);
    ("reserved26", false);
    ("reserved27", false);
    ("hypervisor_injection", false);
    ("vmm_communication_exception", true);
    ("security_exception", true);
    ("reserved31", false)
  ].

(** Body of the first loop of [main], over [enumerate(TRAPS)]. *)
Definition trap_stub (e : nat * (string * bool)) : proc :=
  let '(i, (name, has_err_code)) := e in
  (print (".global " ++ name) ;;
   print (name ++ ":") ;;
   when (negb has_err_code) (print (TAB ++ "pushq $0")) ;;
   print (TAB ++ "pushq $" ++ str i) ;;
   print (TAB ++ "jmp handleTrap" ++ NL))%proc.

(** Body of the second loop of [main], over [range(32, 256)]. *)
Definition vector_stub (i : nat) : proc :=
  (print (".global vector" ++ str i) ;;
   print ("vector" ++ str i ++ ":") ;;
   print (TAB ++ "push $0") ;;
   print (TAB ++ "push $" ++ str i) ;;
   print (TAB ++ "jmp handleTrap" ++ NL))%proc.

Definition main : proc :=
  (print ".section .text" ;;
   print ".extern handleTrap" ;;
   for_each (enumerate TRAPS) trap_stub ;;
   for_each (range 32 256) vector_stub ;;
   print ".section .data" ;;
   print ".global trap_table" ;;
   print "trap_table:" ;;
   for_each TRAPS (fun '(name, _) => print (TAB ++ ".quad " ++ name)) ;;
   for_each (range 32 256) (fun i => print (TAB ++ ".quad vector" ++ str i)))%proc.

(** The file a run produces when it starts on an empty stream. *)
Definition initial_world : World := mkWorld [] [] "".

Definition output : string := stdout (main initial_world).

(** ** Reading the generated text as an assembler does *)

Module Asm.

(** The pieces of [s] between its newlines; never the empty list. *)
Fixpoint split_nl (s : string) : list string :=
  match s with
  | EmptyString => [""]
  | String c s' =>
      if (c =? "010")%char then "" :: split_nl s'
      else match split_nl s' with
           | h :: t => String c h :: t
           | [] => [String c ""]
           end
  end.

(** The lines of a text, each without its newline; a text that ends in a
    newline has no empty last line (Python's [splitlines]). *)
Fixpoint lines (s : string) : list string :=
  match s with
  | EmptyString => []
  | String c s' =>
      if (c =? "010")%char then "" :: lines s'
      else match lines s' with
           | h :: t => String c h :: t
           | [] => [String c ""]
           end
  end.

(** One statement per line. *)
Inductive stmt : Type :=
| Directive (name operand : string)
| Label (symbol : string)
| Instr (mnemonic operand : string)
| Blank.

Definition is_blank (c : ascii) : bool :=
  ((c =? "009") || (c =? " "))%char.

Fixpoint lstrip (s : string) : string :=
  match s with
  | String c s' => if is_blank c then lstrip s' else s
  | EmptyString => EmptyString
  end.

(** [cut s] is [s] up to its first space, and what follows that space. *)
Fixpoint cut (s : string) : string * string :=
  match s with
  | EmptyString => ("", "")
  | String c s' =>
      if (c =? " ")%char then ("", s')
      else let '(w, r) := cut s' in (String c w, r)
  end.

(** [Some n] when [s] is [n] followed by a colon. *)
Fixpoint label_of (s : string) : option string :=
  match s with
  | EmptyString => None
  | String c s' =>
      match s' with
      | EmptyString => if (c =? ":")%char then Some "" else None
      | _ => option_map (String c) (label_of s')
      end
  end.

Definition parse_line (l : string) : stmt :=
  match lstrip l with
  | EmptyString => Blank
  | String c _ as s =>
      match label_of s with
      | Some n => Label n
      | None =>
          let '(w, r) := cut s in
          if (c =? ".")%char then Directive w r else Instr w r
      end
  end.

Definition parse (text : string) : list stmt := map parse_line (lines text).

Definition instr : Type := string * string.

(** The statements up to the next [.section] directive. *)
Fixpoint section_body (p : list stmt) : list stmt :=
  match p with
  | [] => []
  | Directive d a :: p' =>
      if d =? ".section" then [] else Directive d a :: section_body p'
  | s :: p' => s :: section_body p'
  end.

(** The sections of a program in the order they are opened. *)
Fixpoint sections (p : list stmt) : list (string * list stmt) :=
  match p with
  | [] => []
  | Directive d a :: p' =>
      if d =? ".section" then (a, section_body p') :: sections p'
      else sections p'
  | _ :: p' => sections p'
  end.

(** The statements of the section called [name] (of the first one). *)
Definition section (name : string) (p : list stmt) : list stmt :=
  match find (fun s => fst s =? name) (sections p) with
  | Some s => snd s
  | None => []
  end.

(** The instructions at the head of [p], up to the first statement that
    is not an instruction. *)
Fixpoint code_at (p : list stmt) : list instr :=
  match p with
  | Instr m o :: p' => (m, o) :: code_at p'
  | _ => []
  end.

(** Every label of [p] with the instructions that follow it. *)
Fixpoint routines (p : list stmt) : list (string * list instr) :=
  match p with
  | [] => []
  | Label n :: p' => (n, code_at p') :: routines p'
  | _ :: p' => routines p'
  end.

(** The operands of the [.quad] directives at the head of [p]. *)
Fixpoint quads_at (p : list stmt) : list string :=
  match p with
  | Directive d a :: p' => if d =? ".quad" then a :: quads_at p' else []
  | _ => []
  end.

(** The [.quad] slots stored from the label [sym] on. *)
Fixpoint object_at (sym : string) (p : list stmt) : option (list string) :=
  match p with
  | [] => None
  | Label n :: p' => if n =? sym then Some (quads_at p') else object_at sym p'
  | _ :: p' => object_at sym p'
  end.

(** Size in bytes of what a data directive stores: [.quad] stores one
    8-byte value. *)
Definition slot_bytes (d : string) : nat :=
  if d =? ".quad" then 8 else 0.

Definition labels (p : list stmt) : list string :=
  flat_map (fun s => match s with Label n => [n] | _ => [] end) p.

(** The operands of the directive [d] in [p]: the symbols declared
    [.global], [.extern]. *)
Definition declared (d : string) (p : list stmt) : list string :=
  flat_map (fun s => match s with
                     | Directive d' a => if d' =? d then [a] else []
                     | _ => []
                     end) p.

End Asm.

Import Asm.

(** ** What a trampoline does, read off its instructions *)

Module Stub.

(** [push] and [pushq] both push a 64-bit value in 64-bit mode; the two
    spellings are kept apart in the instruction itself. *)
Definition is_push (m : string) : bool := (m =? "push") || (m =? "pushq").

(** The value of an immediate operand, a dollar sign and decimal digits. *)
Definition immediate (o : string) : option nat :=
  match o with
  | String "$" d => option_map Nat.of_uint (NilZero.uint_of_string d)
  | _ => None
  end.

Definition pushes (n : nat) (ins : instr) : bool :=
  is_push (fst ins) &&
  match immediate (snd ins) with Some v => Nat.eqb v n | None => false end.

(** The last instruction is the transfer of control; the one before it
    pushes the vector index. *)
Definition jump_pos (code : list instr) : nat := List.length code - 1.
Definition index_pos (code : list instr) : nat := List.length code - 2.

Definition vector_index (code : list instr) : option nat :=
  match nth_error code (index_pos code) with
  | Some (m, o) => if is_push m then immediate o else None
  | None => None
  end.

(** A padding push: a push of zero that is not the push of the index. *)
Definition padding_at (code : list instr) (k : nat) : bool :=
  negb (Nat.eqb k (index_pos code)) &&
  match nth_error code k with
  | Some ins => pushes 0 ins
  | None => false
  end.

Definition has_padding (code : list instr) : bool :=
  existsb (padding_at code) (List.seq 0 (List.length code)).

(** The stack pushes of a routine, in program order. *)
Definition stack_pushes (code : list instr) : list instr :=
  filter (fun ins => is_push (fst ins)) code.

(** Where control goes at the end: the mnemonic and the target of the
    last instruction. *)
Definition transfer (code : list instr) : option instr :=
  nth_error code (jump_pos code).

End Stub.

Import Stub.

(** ** The generated program *)

Definition asm : list stmt := parse output.

Definition text_section : list stmt := section ".text" asm.
Definition data_section : list stmt := section ".data" asm.

(** The trampolines: the routines of the code section. *)
Definition trampolines : list (string * list instr) := routines text_section.

(** [trampoline_for i name code]: the output defines, under the label
    [name], a trampoline that pushes [i] as its vector index. *)
Definition trampoline_for (i : nat) (name : string) (code : list instr) : Prop :=
  In (name, code) trampolines /\ vector_index code = Some i.

(** The dispatch table: the slots stored at [trap_table]. *)
Definition slots_at (sym : string) (p : list stmt) : list string :=
  match object_at sym p with
  | Some t => t
  | None => []
  end.

Definition trap_table : list string := slots_at "trap_table" data_section.

(** The error-code flag the generator acts on for vector [i]: the one of its
    entry in [TRAPS].  The vectors past the table belong to the second loop
    of [main], which has no flag and writes the zero push in every round, as
    the first loop does for a flag that is false. *)
Definition has_hw_error_code (i : nat) : bool :=
  match nth_error TRAPS i with
  | Some (_, has_err_code) => has_err_code
  | None => false
  end.

(** The entry-point name the generator gives vector [i]. *)
Definition label (i : nat) : string :=
  match nth_error TRAPS i with
  | Some (name, _) => name
  | None => "vector" ++ str i
  end.

(** ** The text [main] writes, in closed form *)

(** The stream after the arguments [ls] of successive [print] calls. *)
Fixpoint text_of (ls : list string) : string :=
  match ls with
  | [] => ""
  | s :: ls' => s ++ NL ++ text_of ls'
  end.

Definition emit (ls : list string) : proc :=
  fun w => mkWorld (argv w) (environ w) (stdout w ++ text_of ls).

(** [writes p ls]: whatever the world, [p] does nothing but print [ls]. *)
Definition writes (p : proc) (ls : list string) : Prop :=
  forall w, p w = emit ls w.

Definition trap_prints (e : nat * (string * bool)) : list string :=
  let '(i, (name, has_err_code)) := e in
  [(".global " ++ name)%string; (name ++ ":")%string] ++
  (if has_err_code then [] else [(TAB ++ "pushq $0")%string]) ++
  [(TAB ++ "pushq $" ++ str i)%string; (TAB ++ "jmp handleTrap" ++ NL)%string].

Definition vector_prints (i : nat) : list string :=
  [(".global vector" ++ str i)%string; ("vector" ++ str i ++ ":")%string;
   (TAB ++ "push $0")%string; (TAB ++ "push $" ++ str i)%string;
   (TAB ++ "jmp handleTrap" ++ NL)%string].

Definition printed : list string :=
  [".section .text"; ".extern handleTrap"] ++
  flat_map trap_prints (enumerate TRAPS) ++
  flat_map vector_prints (range 32 256) ++
  [".section .data"; ".global trap_table"; "trap_table:"] ++
  flat_map (fun e : string * bool => [(TAB ++ ".quad " ++ fst e)%string]) TRAPS ++
  flat_map (fun i => [(TAB ++ ".quad vector" ++ str i)%string]) (range 32 256).

(** The part of the stream that [p] added when run in [w]. *)
Definition written (p : proc) (w : World) : string :=
  let before := String.length (stdout w) in
  let after := stdout (p w) in
  substring before (String.length after - before) after.

(** ** The generated program in closed form *)

(** The loop of [main] that writes vector [i] spells its pushes its own
    way. *)
Definition push_mnemonic (i : nat) : string :=
  match nth_error TRAPS i with
  | Some _ => "pushq"
  | None => "push"
  end.

(** The instructions of the trampoline of vector [i]. *)
Definition code_of (i : nat) : list instr :=
  (if has_hw_error_code i then [] else [(push_mnemonic i, "$0")]) ++
  [(push_mnemonic i, ("$" ++ str i)%string); ("jmp", "handleTrap")].

Definition stub (i : nat) : string * list instr := (label i, code_of i).

Definition stub_stmts (i : nat) : list stmt :=
  [Directive ".global" (label i); Label (label i)] ++
  map (fun ins : instr => Instr (fst ins) (snd ins)) (code_of i) ++ [Blank].

Definition text_stmts : list stmt :=
  Directive ".extern" "handleTrap" :: flat_map stub_stmts (List.seq 0 256).

Definition data_stmts : list stmt :=
  Directive ".global" "trap_table" :: Label "trap_table" ::
  map (fun i => Directive ".quad" (label i)) (List.seq 0 256).

Definition program : list stmt :=
  Directive ".section" ".text" :: text_stmts ++
  Directive ".section" ".data" :: data_stmts.

(** The vectors with a hardware error code, as the architecture lists them. *)
Definition error_code_vectors : list nat := [8; 10; 11; 12; 13; 14; 17; 21; 29; 30].

(** ** Tests used for counting *)

(** No string occurs twice in [l]. *)
Fixpoint nodupb (l : list string) : bool :=
  match l with
  | [] => true
  | x :: r => negb (existsb (String.eqb x) r) && nodupb r
  end.

(** The test used to count the trampolines of vector [i]. *)
Definition has_index (i : nat) (t : string * list instr) : bool :=
  match vector_index (snd t) with
  | Some j => Nat.eqb j i
  | None => false
  end.

(** ** One template for every vector? *)

Module Template.

(** A line with holes for the entry-point name and for the index. *)
Inductive piece : Type :=
| Lit (s : string)
| Name
| Index.

Definition fill_piece (name index : string) (p : piece) : string :=
  match p with
  | Lit s => s
  | Name => name
  | Index => index
  end.

Fixpoint fill_line (name index : string) (l : list piece) : string :=
  match l with
  | [] => ""
  | p :: l' => fill_piece name index p ++ fill_line name index l'
  end.

(** Substituting a vector's name and index in a template. *)
Definition fill (name index : string) (t : list (list piece)) : list string :=
  map (fill_line name index) t.

Fixpoint lit_length (l : list piece) : nat :=
  match l with
  | [] => 0
  | Lit s :: l' => String.length s + lit_length l'
  | _ :: l' => lit_length l'
  end.

Fixpoint holes (h : piece) (l : list piece) : nat :=
  match l, h with
  | [], _ => 0
  | Name :: l', Name => S (holes h l')
  | Index :: l', Index => S (holes h l')
  | _ :: l', _ => holes h l'
  end.

(** The spec's template (4.2): declare the entry point global, define
    it, push a zero unless the hardware pushes an error code, push the
    index, jump to the dispatch entry point.  The spec does not name the
    push instruction: it is the parameter [push]. *)
Definition spec_template (push : string) (has_hw_error_code : bool)
  : list (list piece) :=
  [[Lit ".global "; Name]; [Name; Lit ":"]] ++
  (if has_hw_error_code then [] else [[Lit (TAB ++ push ++ " $0")]]) ++
  [[Lit (TAB ++ push ++ " $"); Index]; [Lit (TAB ++ "jmp handleTrap" ++ NL)]].

End Template.

Import Template.

(** What the round of the loops of [main] for vector [i] prints. *)
Definition stub_prints (i : nat) : list string :=
  match nth_error TRAPS i with
  | Some e => trap_prints (i, e)
  | None => vector_prints i
  end.

(** The texts of two vectors are the same once the name and the index of
    each are substituted: both are instances of one template. *)
Definition same_after_substitution (i j : nat) : Prop :=
  exists t, stub_prints i = fill (label i) (str i) t /\
            stub_prints j = fill (label j) (str j) t.

(** ** What the instructions do *)

Inductive action : Type :=
| Push (value : nat)
| Jump (target : string)
| Other (ins : instr).

Definition action_of (ins : instr) : action :=
  let '(m, o) := ins in
  if is_push m then
    match immediate o with
    | Some v => Push v
    | None => Other ins
    end
  else if (m =? "jmp")%string then Jump o
  else Other ins.

Definition behaviour (code : list instr) : list action := map action_of code.

(** ** Names a loop body can be given *)

(** The three ways a name can break the two lines [.global name] and
    [name:] written for it. *)
Fixpoint has_newline (s : string) : bool :=
  match s with
  | EmptyString => false
  | String c s' => (c =? "010")%char || has_newline s'
  end.

Definition starts_blank (s : string) : bool :=
  match s with
  | EmptyString => false
  | String c _ => is_blank c
  end.

Fixpoint ends_with_colon (s : string) : bool :=
  match s with
  | EmptyString => false
  | String c s' =>
      match s' with
      | EmptyString => (c =? ":")%char
      | _ => ends_with_colon s'
      end
  end.

(** A name that keeps its two lines apart and readable: no newline in it,
    no blank in front, no colon at the end. *)
Definition well_formed_name (name : string) : bool :=
  negb (has_newline name) && negb (starts_blank name) &&
  negb (ends_with_colon name).

Definition is_digit (c : ascii) : bool :=
  existsb (Ascii.eqb c)
    ["0"; "1"; "2"; "3"; "4"; "5"; "6"; "7"; "8"; "9"]%char.

Fixpoint all_digits (s : string) : bool :=
  match s with
  | EmptyString => true
  | String c s' => is_digit c && all_digits s'
  end.

(** ** The statements of one stub *)

(** The instructions a loop body writes for the index [i], with the
    spelling [push] of its push instruction. *)
Definition stub_code (push : string) (i : nat) (has_err_code : bool)
  : list instr :=
  (if has_err_code then [] else [(push, "$0")]) ++
  [(push, ("$" ++ str i)%string); ("jmp", "handleTrap")].

(** The statements a loop body writes for the entry point [name]. *)
Definition stub_reading (push name : string) (i : nat) (has_err_code : bool)
  : list stmt :=
  [Directive ".global" name; Label name] ++
  map (fun ins : instr => Instr (fst ins) (snd ins))
      (stub_code push i has_err_code) ++
  [Blank].

(** ** Running a trampoline *)

(** The stack of 64-bit words when the trampoline of a vector is entered:
    the processor has pushed its interrupt frame and, for a vector with a
    hardware error code, the error code [ec] on top of it. *)
Definition entry_stack (has_err_code : bool) (ec : nat) (frame : list nat)
  : list nat :=
  if has_err_code then ec :: frame else frame.

(** Running the actions on a stack, the top first: a push puts its value
    on top, a jump leaves with the target and the stack as it is; nothing
    else can be run, and neither can code that ends without a jump. *)
Fixpoint run (code : list action) (stack : list nat)
  : option (string * list nat) :=
  match code with
  | [] => None
  | Push v :: code' => run code' (v :: stack)
  | Jump target :: _ => Some (target, stack)
  | Other _ :: _ => None
  end.

(** ** The loops of [main] over any table and any range *)

(** The first loop of [main], for a table [traps]. *)
Definition trap_loop (traps : list (string * bool)) : proc :=
  for_each (enumerate traps) trap_stub.

(** The second loop of [main], for the indices from [lo] up to [hi]. *)
Definition vector_loop (lo hi : nat) : proc :=
  for_each (range lo hi) vector_stub.

(** The label of the table and the loop of [main] that writes the slots of
    the entries of a table [traps]. *)
Definition table_loop (traps : list (string * bool)) : proc :=
  (print "trap_table:" ;;
   for_each traps (fun '(name, _) => print (TAB ++ ".quad " ++ name)))%proc.

(** * Proofs *)

(** ** Lemmas on strings and streams *)

Section Streams.

Lemma append_nil_r (s : string) : (s ++ "")%string = s.
Proof. induction s as [|c s IH]; simpl; [reflexivity | now rewrite IH]. Qed.

Lemma append_assoc (a b c : string) :
  ((a ++ b) ++ c)%string = (a ++ b ++ c)%string.
Proof. induction a as [|x a IH]; simpl; [reflexivity | now rewrite IH]. Qed.

Lemma text_of_app (xs ys : list string) :
  text_of (xs ++ ys) = (text_of xs ++ text_of ys)%string.
Proof.
  induction xs as [|x xs IH]; simpl; [reflexivity|].
  now rewrite IH, !append_assoc.
Qed.

Lemma writes_print (s : string) : writes (print s) [s].
Proof. intros w. unfold print, emit. cbn [text_of]. now rewrite append_nil_r. Qed.

Lemma writes_skip : writes skip [].
Proof. intros [a e o]. unfold skip, emit. simpl. now rewrite append_nil_r. Qed.

Lemma writes_seq (p q : proc) (xs ys : list string) :
  writes p xs -> writes q ys -> writes (p ;; q) (xs ++ ys).
Proof.
  intros Hp Hq w. unfold seq. rewrite Hp, Hq. unfold emit. simpl.
  now rewrite text_of_app, append_assoc.
Qed.

Lemma writes_when (c : bool) (p : proc) (xs : list string) :
  writes p xs -> writes (when c p) (if c then xs else []).
Proof. destruct c; simpl; [trivial | intros _; apply writes_skip]. Qed.

Lemma writes_for_each {A : Type} (body : A -> proc) (f : A -> list string) :
  (forall x, writes (body x) (f x)) ->
  forall xs, writes (for_each xs body) (flat_map f xs).
Proof.
  intros Hbody xs. induction xs as [|x xs IH]; simpl.
  - apply writes_skip.
  - apply writes_seq; [apply Hbody | exact IH].
Qed.

Lemma split_nl_cons (s : string) : exists h t, split_nl s = h :: t.
Proof.
  destruct s as [|c s]; simpl; [now eexists; eexists|].
  destruct (c =? "010")%char; [now eexists; eexists|].
  destruct (split_nl s); now eexists; eexists.
Qed.

(** A printed string contributes its own pieces to the lines of the
    stream, whatever is printed after it. *)
Lemma lines_print (s rest : string) :
  lines (s ++ NL ++ rest) = split_nl s ++ lines rest.
Proof.
  induction s as [|c s IH]; simpl; [reflexivity|].
  destruct (c =? "010")%char; simpl.
  - now f_equal.
  - simpl in IH. rewrite IH.
    destruct (split_nl_cons s) as (h & t & ->). reflexivity.
Qed.

Lemma lines_text_of (ls : list string) :
  lines (text_of ls) = flat_map split_nl ls.
Proof.
  induction ls as [|s ls IH]; [reflexivity|].
  cbn [text_of flat_map]. now rewrite lines_print, IH.
Qed.

Lemma length_append (a b : string) :
  String.length (a ++ b) = String.length a + String.length b.
Proof. induction a as [|c a IH]; simpl; [reflexivity | now rewrite IH]. Qed.

Lemma substring_suffix (a b : string) :
  substring (String.length a) (String.length b) (a ++ b) = b.
Proof.
  induction a as [|c a IH]; simpl; [|exact IH].
  induction b as [|c b IHb]; simpl; [reflexivity|now rewrite IHb].
Qed.

Lemma written_emit (p : proc) (ls : list string) (w : World) :
  writes p ls -> written p w = text_of ls.
Proof.
  intros H. unfold written. rewrite H. unfold emit. simpl.
  rewrite length_append, Nat.add_comm, Nat.add_sub.
  apply substring_suffix.
Qed.

End Streams.

(** ** [main] writes [printed] *)

Section MainWrites.

Create HintDb writes.
Local Hint Resolve writes_print writes_skip : writes.

Lemma trap_stub_writes (e : nat * (string * bool)) :
  writes (trap_stub e) (trap_prints e).
Proof.
  destruct e as [i [name has_err_code]]. unfold trap_stub, trap_prints.
  change [(".global " ++ name)%string; (name ++ ":")%string]
    with ([(".global " ++ name)%string] ++ [(name ++ ":")%string]).
  rewrite <- app_assoc.
  apply writes_seq; auto with writes.
  apply writes_seq; auto with writes.
  apply writes_seq.
  - destruct has_err_code; simpl; auto with writes.
  - apply (writes_seq _ _ [_] [_]); auto with writes.
Qed.

Lemma vector_stub_writes (i : nat) : writes (vector_stub i) (vector_prints i).
Proof.
  unfold vector_stub, vector_prints.
  repeat (apply (writes_seq _ _ [_]); [apply writes_print|]).
  apply writes_print.
Qed.

Lemma main_writes : writes main printed.
Proof.
  unfold main, printed.
  apply (writes_seq _ _ [_]); [apply writes_print|].
  apply (writes_seq _ _ [_]); [apply writes_print|].
  apply writes_seq; [apply writes_for_each, trap_stub_writes|].
  apply writes_seq; [apply writes_for_each, vector_stub_writes|].
  apply (writes_seq _ _ [_]); [apply writes_print|].
  apply (writes_seq _ _ [_]); [apply writes_print|].
  apply (writes_seq _ _ [_]); [apply writes_print|].
  apply writes_seq; apply writes_for_each.
  - intros [name e]. apply writes_print.
  - intros i. apply writes_print.
Qed.

Lemma output_printed : output = text_of printed.
Proof. unfold output. now rewrite main_writes. Qed.

Lemma asm_printed : asm = map parse_line (flat_map split_nl printed).
Proof. unfold asm, parse. now rewrite output_printed, lines_text_of. Qed.

End MainWrites.

(** From here on the output is only used through [asm_printed]: its text is
    never unfolded. *)
Global Opaque output asm.

(** ** Decimal numerals *)

Section Numerals.

Lemma to_uint_nonnil (n : nat) : Nat.to_uint n <> Nil.
Proof.
  rewrite <- (DecimalNat.Unsigned.of_to n) at 1.
  rewrite DecimalNat.Unsigned.to_of. apply DecimalFacts.unorm_nonnil.
Qed.

(** Reading back the digits of [f"{i}"] gives [i]. *)
Lemma immediate_str (i : nat) : immediate ("$" ++ str i) = Some i.
Proof.
  unfold immediate, str. cbn [append].
  rewrite NilZero.usu by apply to_uint_nonnil. cbn [option_map].
  now rewrite DecimalNat.Unsigned.of_to.
Qed.

Lemma str_inj (i j : nat) : str i = str j -> i = j.
Proof.
  intros H. assert (E : Some i = Some j)
    by now rewrite <- (immediate_str i), <- (immediate_str j), H.
  now injection E.
Qed.

Lemma append_inj_l (p a b : string) : (p ++ a)%string = (p ++ b)%string -> a = b.
Proof.
  induction p as [|c p IH]; simpl; intros H; [exact H|].
  injection H as H. auto.
Qed.

(** The synthesized names determine the index. *)
Lemma vector_name_inj (i j : nat) :
  ("vector" ++ str i)%string = ("vector" ++ str j)%string -> i = j.
Proof. intros H. apply str_inj. exact (append_inj_l _ _ _ H). Qed.

End Numerals.

Section ClosedForm.

Lemma asm_program : asm = program.
Proof. rewrite asm_printed. vm_compute. reflexivity. Qed.

Lemma text_section_stmts : text_section = text_stmts.
Proof. unfold text_section. rewrite asm_program. vm_compute. reflexivity. Qed.

Lemma data_section_stmts : data_section = data_stmts.
Proof. unfold data_section. rewrite asm_program. vm_compute. reflexivity. Qed.

Lemma trampolines_stubs : trampolines = map stub (List.seq 0 256).
Proof.
  unfold trampolines. rewrite text_section_stmts. vm_compute. reflexivity.
Qed.

Lemma trap_table_labels : trap_table = map label (List.seq 0 256).
Proof.
  unfold trap_table. rewrite data_section_stmts. vm_compute. reflexivity.
Qed.

Lemma in_trampolines (name : string) (code : list instr) :
  In (name, code) trampolines <->
  exists i, i < 256 /\ name = label i /\ code = code_of i.
Proof.
  rewrite trampolines_stubs, in_map_iff. unfold stub.
  split; intros (i & H1 & H2).
  - injection H1 as <- <-. apply in_seq in H2. exists i. repeat split. lia.
  - destruct H2 as [-> ->]. exists i. split; [reflexivity|].
    apply in_seq. lia.
Qed.

(** A property checked on every index below [n] holds of each of them. *)
Lemma forall_below (n : nat) (P : nat -> bool) :
  forallb P (List.seq 0 n) = true -> forall i, i < n -> P i = true.
Proof.
  intros H i Hi. rewrite forallb_forall in H. apply H, in_seq. lia.
Qed.

End ClosedForm.

(** ** The trampoline of one vector *)

Section OneStub.

Variable i : nat.

Lemma is_push_mnemonic : is_push (push_mnemonic i) = true.
Proof. unfold push_mnemonic. now destruct (nth_error TRAPS i). Qed.

Lemma pushes_index : pushes i (push_mnemonic i, ("$" ++ str i)%string) = true.
Proof.
  unfold pushes. cbn [fst snd].
  rewrite is_push_mnemonic, immediate_str. apply Nat.eqb_refl.
Qed.

Lemma pushes_zero : pushes 0 (push_mnemonic i, "$0") = true.
Proof. unfold pushes. cbn [fst snd]. now rewrite is_push_mnemonic. Qed.

Lemma code_of_flag :
  code_of i =
  if has_hw_error_code i
  then [(push_mnemonic i, ("$" ++ str i)%string); ("jmp", "handleTrap")]
  else [(push_mnemonic i, "$0"); (push_mnemonic i, ("$" ++ str i)%string);
        ("jmp", "handleTrap")].
Proof. unfold code_of. now destruct (has_hw_error_code i). Qed.

Lemma index_pos_code_of :
  index_pos (code_of i) = if has_hw_error_code i then 0 else 1.
Proof. rewrite code_of_flag. now destruct (has_hw_error_code i). Qed.

(** The push next to the jump is the push of [i]. *)
Lemma vector_index_code_of : vector_index (code_of i) = Some i.
Proof.
  unfold vector_index. rewrite index_pos_code_of, code_of_flag.
  destruct (has_hw_error_code i); cbn [nth_error];
    now rewrite is_push_mnemonic, immediate_str.
Qed.

(** The only padding push is the first instruction, and only without a
    hardware error code. *)
Lemma padding_at_code_of (k : nat) :
  padding_at (code_of i) k = true <-> has_hw_error_code i = false /\ k = 0.
Proof.
  unfold padding_at. rewrite index_pos_code_of, code_of_flag.
  destruct (has_hw_error_code i).
  - destruct k as [|[|[|k]]]; cbn; intuition congruence.
  - destruct k as [|[|[|k]]]; cbn [nth_error Nat.eqb negb andb].
    + rewrite pushes_zero. intuition.
    + intuition congruence.
    + cbn. intuition congruence.
    + destruct k; cbn; intuition congruence.
Qed.

Lemma transfer_code_of : transfer (code_of i) = Some ("jmp", "handleTrap").
Proof.
  unfold transfer, jump_pos. rewrite code_of_flag.
  now destruct (has_hw_error_code i).
Qed.

End OneStub.

(** A trampoline of the output that pushes [i] is the one written for
    vector [i]. *)
Lemma trampoline_for_stub (i : nat) (name : string) (code : list instr) :
  trampoline_for i name code <-> i < 256 /\ name = label i /\ code = code_of i.
Proof.
  unfold trampoline_for. rewrite in_trampolines. split.
  - intros ((j & Hj & -> & ->) & Hi).
    rewrite vector_index_code_of in Hi. injection Hi as ->. auto.
  - intros (Hi & -> & ->). split; [now exists i | apply vector_index_code_of].
Qed.

(** ** The classification *)

Lemma has_hw_error_code_vectors (i : nat) :
  has_hw_error_code i = true <-> In i error_code_vectors.
Proof.
  destruct (Nat.lt_ge_cases i 32) as [Hi|Hi].
  - pose proof (forall_below 32
      (fun i => Bool.eqb (has_hw_error_code i)
                         (existsb (Nat.eqb i) error_code_vectors))
      eq_refl i Hi) as H.
    apply Bool.eqb_prop in H. rewrite H, existsb_exists. split.
    + intros (x & Hx & E). apply Nat.eqb_eq in E. now subst.
    + intros Hx. exists i. split; [exact Hx | apply Nat.eqb_refl].
  - unfold has_hw_error_code.
    assert (E : nth_error TRAPS i = None) by now apply nth_error_None.
    rewrite E. split; [discriminate|].
    unfold error_code_vectors. simpl. lia.
Qed.

(** ** Entry-point names *)

Section Names.

Lemma nth_error_TRAPS (i : nat) :
  i < 32 -> nth_error TRAPS i = Some (label i, has_hw_error_code i).
Proof.
  intros Hi. unfold label, has_hw_error_code.
  destruct (nth_error TRAPS i) as [[name e]|] eqn:E; [reflexivity|].
  apply nth_error_None in E. simpl in E. lia.
Qed.

Lemma label_vector (i : nat) : 32 <= i -> label i = ("vector" ++ str i)%string.
Proof.
  intros Hi. unfold label.
  assert (E : nth_error TRAPS i = None) by now apply nth_error_None.
  now rewrite E.
Qed.

Lemma push_mnemonic_range (i : nat) :
  push_mnemonic i = if (i <? 32)%nat then "pushq" else "push".
Proof.
  unfold push_mnemonic. destruct (Nat.ltb_spec i 32) as [Hi|Hi].
  - now rewrite nth_error_TRAPS.
  - assert (E : nth_error TRAPS i = None) by now apply nth_error_None.
    now rewrite E.
Qed.

(** No hand-written label starts like a synthesized one. *)
Lemma trap_label_not_vector (i : nat) :
  i < 32 -> prefix "vector" (label i) = false.
Proof.
  intros Hi.
  apply (forall_below 32 (fun i => negb (prefix "vector" (label i)))) in Hi;
    [|reflexivity].
  now apply negb_true_iff in Hi.
Qed.

Lemma trap_labels_distinct (i j : nat) :
  i < 32 -> j < 32 -> label i = label j -> i = j.
Proof.
  intros Hi Hj E.
  pose proof (forall_below 32
    (fun i => forallb (fun j => implb (label i =? label j)%string (i =? j)%nat)
                      (List.seq 0 32)) eq_refl i Hi) as H.
  cbv beta in H. rewrite forallb_forall in H.
  specialize (H j). rewrite E, String.eqb_refl in H.
  apply Nat.eqb_eq, H, in_seq. lia.
Qed.

Lemma prefix_vector (s : string) : prefix "vector" ("vector" ++ s) = true.
Proof. destruct s; reflexivity. Qed.

(** The 32 labels of the table and the names made from an index never
    collide, whatever the indices. *)
Lemma label_inj (i j : nat) : label i = label j -> i = j.
Proof.
  intros E.
  destruct (Nat.lt_ge_cases i 32) as [Hi|Hi],
           (Nat.lt_ge_cases j 32) as [Hj|Hj].
  - now apply trap_labels_distinct.
  - pose proof (trap_label_not_vector i Hi) as P.
    rewrite E, (label_vector j Hj), prefix_vector in P. discriminate P.
  - pose proof (trap_label_not_vector j Hj) as P.
    rewrite <- E, (label_vector i Hi), prefix_vector in P. discriminate P.
  - rewrite (label_vector i Hi), (label_vector j Hj) in E.
    now apply vector_name_inj.
Qed.

Lemma NoDup_map_seq {A : Type} (f : nat -> A) (a n : nat) :
  (forall i j, f i = f j -> i = j) -> NoDup (map f (List.seq a n)).
Proof.
  intros Hf. revert a. induction n as [|n IH]; intros a; simpl.
  - constructor.
  - constructor; [|apply IH].
    rewrite in_map_iff. intros (j & E & Hj).
    apply Hf in E. apply in_seq in Hj. lia.
Qed.

Lemma nth_error_map_seq {A : Type} (f : nat -> A) (n i : nat) :
  i < n -> nth_error (map f (List.seq 0 n)) i = Some (f i).
Proof.
  intros Hi. rewrite nth_error_map, nth_error_seq.
  destruct (Nat.ltb_spec i n); [reflexivity | lia].
Qed.

Lemma nth_error_map_seq_inv {A : Type} (f : nat -> A) (n i : nat) (x : A) :
  nth_error (map f (List.seq 0 n)) i = Some x -> i < n /\ x = f i.
Proof.
  intros H. assert (Hi : i < n).
  { rewrite <- (length_seq n 0), <- (length_map f).
    apply nth_error_Some. now rewrite H. }
  rewrite nth_error_map_seq in H by exact Hi. now injection H as <-.
Qed.

End Names.

(** ** Counting and duplicates *)

Section Counting.

Lemma nodupb_NoDup (l : list string) : nodupb l = true -> NoDup l.
Proof.
  induction l as [|x r IH]; simpl; intros H; constructor.
  - apply andb_prop in H as [H _]. apply negb_true_iff in H.
    intros Hin. enough (existsb (String.eqb x) r = true) by congruence.
    apply existsb_exists. exists x. split; [exact Hin | apply String.eqb_refl].
  - apply IH. now apply andb_prop in H.
Qed.

Lemma has_index_stub (i j : nat) : has_index i (stub j) = Nat.eqb j i.
Proof. unfold has_index, stub. cbn [snd]. now rewrite vector_index_code_of. Qed.

Lemma count_stubs (i a n : nat) :
  List.length (filter (has_index i) (map stub (List.seq a n))) =
  if (a <=? i)%nat && (i <? a + n)%nat then 1 else 0.
Proof.
  revert a. induction n as [|n IH]; intros a; cbn [List.seq map filter].
  - destruct (Nat.leb_spec a i), (Nat.ltb_spec i (a + 0)); simpl; lia.
  - rewrite has_index_stub.
    destruct (Nat.eqb_spec a i) as [->|Hne]; cbn [List.length]; rewrite IH.
    + destruct (Nat.leb_spec (S i) i), (Nat.leb_spec i i),
               (Nat.ltb_spec i (S i + n)), (Nat.ltb_spec i (i + S n));
        simpl; lia.
    + destruct (Nat.leb_spec (S a) i), (Nat.leb_spec a i),
               (Nat.ltb_spec i (S a + n)), (Nat.ltb_spec i (a + S n));
        simpl; lia.
Qed.

End Counting.

(** ** One template for every vector? *)

Section Templates.

(** The two loops together print the stubs of the vectors 0..255. *)
Lemma printed_stubs :
  printed =
  [".section .text"; ".extern handleTrap"] ++
  flat_map stub_prints (List.seq 0 256) ++
  [".section .data"; ".global trap_table"; "trap_table:"] ++
  map (fun i => (TAB ++ ".quad " ++ label i)%string) (List.seq 0 256).
Proof. vm_compute. reflexivity. Qed.

Lemma fill_line_length (name index : string) (l : list piece) :
  String.length (fill_line name index l) =
  lit_length l + holes Name l * String.length name
               + holes Index l * String.length index.
Proof.
  induction l as [|p l IH]; [reflexivity|].
  cbn [fill_line]. rewrite length_append, IH.
  destruct p; cbn [fill_piece lit_length holes]; lia.
Qed.

Lemma stub_prints_template (i : nat) :
  stub_prints i =
  fill (label i) (str i)
       (spec_template (push_mnemonic i) (has_hw_error_code i)).
Proof.
  unfold stub_prints, push_mnemonic, has_hw_error_code, label.
  destruct (nth_error TRAPS i) as [[name e]|].
  - destruct e; cbn; now rewrite !append_nil_r.
  - cbn. now rewrite !append_nil_r.
Qed.

End Templates.

(** ** The layout of the output *)

Section Layout.

Lemma indices_in_order :
  map (fun t : string * list instr => vector_index (snd t)) trampolines =
  map Some (List.seq 0 256).
Proof.
  rewrite trampolines_stubs, map_map. apply map_ext.
  intros i. apply vector_index_code_of.
Qed.

Lemma names_of_trampolines : map fst trampolines = map label (List.seq 0 256).
Proof. rewrite trampolines_stubs, map_map. reflexivity. Qed.

Lemma not_in_existsb (x : string) (l : list string) :
  existsb (String.eqb x) l = false -> ~ In x l.
Proof.
  intros H Hin. enough (existsb (String.eqb x) l = true) by congruence.
  apply existsb_exists. exists x. split; [exact Hin | apply String.eqb_refl].
Qed.

Lemma seq_increasing (a n : nat) : StronglySorted lt (List.seq a n).
Proof.
  revert a. induction n as [|n IH]; intros a; simpl; constructor.
  - apply IH.
  - apply Forall_forall. intros x Hx. apply in_seq in Hx. lia.
Qed.

End Layout.

(** ** Reading one stub back *)

Section ReadBack.

Lemma split_nl_line (s : string) : has_newline s = false -> split_nl s = [s].
Proof.
  induction s as [|c s IH]; [reflexivity|].
  cbn [has_newline split_nl]. intros H. apply orb_false_elim in H as [Hc Hs].
  now rewrite Hc, (IH Hs).
Qed.

Lemma has_newline_app (a b : string) :
  has_newline (a ++ b) = has_newline a || has_newline b.
Proof.
  induction a as [|c a IH]; [reflexivity|].
  cbn [append has_newline]. now rewrite IH, orb_assoc.
Qed.

Lemma label_of_colon (n : string) : label_of (n ++ ":") = Some n.
Proof.
  induction n as [|c n IH]; [reflexivity|].
  cbn [append label_of]. rewrite IH.
  destruct n; reflexivity.
Qed.

Lemma label_of_ends (s : string) :
  ends_with_colon s = false -> label_of s = None.
Proof.
  induction s as [|c s IH]; [reflexivity|].
  cbn [ends_with_colon label_of]. destruct s as [|d s].
  - now intros ->.
  - intros H. now rewrite (IH H).
Qed.

Lemma ends_with_colon_app (p s : string) :
  s <> "" -> ends_with_colon (p ++ s) = ends_with_colon s.
Proof.
  intros Hs. induction p as [|c p IH]; [reflexivity|].
  cbn [append ends_with_colon]. rewrite IH.
  destruct (p ++ s)%string eqn:E; [|reflexivity].
  destruct p; [cbn in E; contradiction | discriminate E].
Qed.

Lemma lstrip_name (s : string) : starts_blank s = false -> lstrip s = s.
Proof. destruct s as [|c s]; [reflexivity|]. cbn. now intros ->. Qed.

Lemma is_digit_not (c d : ascii) :
  is_digit d = false -> is_digit c = true -> (c =? d)%char = false.
Proof.
  intros Hd Hc. destruct (Ascii.eqb_spec c d) as [->|]; [congruence|reflexivity].
Qed.

Lemma digits_no_newline (s : string) :
  all_digits s = true -> has_newline s = false.
Proof.
  induction s as [|c s IH]; [reflexivity|].
  cbn [all_digits has_newline]. intros H. apply andb_prop in H as [Hc Hs].
  now rewrite (is_digit_not c "010" eq_refl Hc), (IH Hs).
Qed.

Lemma digits_no_colon (s : string) :
  all_digits s = true -> ends_with_colon s = false.
Proof.
  induction s as [|c s IH]; [reflexivity|].
  cbn [all_digits ends_with_colon]. intros H. apply andb_prop in H as [Hc Hs].
  destruct s; [exact (is_digit_not c ":" eq_refl Hc) | exact (IH Hs)].
Qed.

Lemma digits_of_uint (d : uint) :
  all_digits (NilEmpty.string_of_uint d) = true.
Proof. induction d; cbn; auto. Qed.

Lemma str_digits (i : nat) : all_digits (str i) = true.
Proof.
  unfold str, NilZero.string_of_uint.
  destruct (Nat.to_uint i) eqn:E; try (rewrite <- E; apply digits_of_uint).
  reflexivity.
Qed.

Lemma str_nonempty (i : nat) : str i <> "".
Proof.
  unfold str, NilZero.string_of_uint.
  destruct (Nat.to_uint i); cbn; discriminate.
Qed.

(** The line of a push, in either spelling. *)
Lemma parse_push_line (push : string) (i : nat) :
  is_push push = true ->
  parse_line (TAB ++ push ++ " $" ++ str i) = Instr push ("$" ++ str i).
Proof.
  intros H. unfold is_push in H. apply orb_prop in H.
  assert (L : label_of ("$" ++ str i) = None).
  { apply label_of_ends. rewrite ends_with_colon_app by apply str_nonempty.
    apply digits_no_colon, str_digits. }
  assert (N : ("$" ++ str i)%string <> "") by discriminate.
  destruct H as [H|H]; apply String.eqb_eq in H; subst push;
    unfold parse_line; cbn [TAB append lstrip is_blank Ascii.eqb Bool.eqb orb];
    cbn [label_of append] in L |- *.
  - destruct (str i) eqn:E; [now destruct (str_nonempty i)|].
    rewrite L. reflexivity.
  - destruct (str i) eqn:E; [now destruct (str_nonempty i)|].
    rewrite L. reflexivity.
Qed.

Lemma parse_line_statement (c : ascii) (s : string) :
  is_blank c = false ->
  label_of (String c s) = None ->
  parse_line (String c s) =
  let '(w, r) := cut (String c s) in
  if (c =? ".")%char then Directive w r else Instr w r.
Proof.
  intros Hc Hl. unfold parse_line. cbn [lstrip]. now rewrite Hc, Hl.
Qed.

Lemma parse_line_label (name : string) :
  starts_blank name = false -> parse_line (name ++ ":") = Label name.
Proof.
  intros H. unfold parse_line.
  assert (B : starts_blank (name ++ ":") = false) by now destruct name.
  rewrite (lstrip_name _ B).
  destruct (name ++ ":")%string eqn:E; [now destruct name|].
  now rewrite <- E, label_of_colon.
Qed.

Lemma parse_line_global (name : string) :
  ends_with_colon name = false ->
  parse_line (".global " ++ name) = Directive ".global" name.
Proof.
  intros H.
  change (".global " ++ name)%string with (String "." ("global " ++ name)).
  rewrite parse_line_statement; [reflexivity | reflexivity |].
  apply label_of_ends.
  destruct name as [|c name]; [reflexivity|].
  change (String "." ("global " ++ String c name))
    with (".global " ++ String c name)%string.
  rewrite ends_with_colon_app by discriminate. exact H.
Qed.

(** The prints of a stub, read as statements. *)
Lemma reading_of_prints (push name : string) (i : nat) (has_err_code : bool) :
  is_push push = true ->
  has_newline name = false ->
  starts_blank name = false ->
  ends_with_colon name = false ->
  map parse_line (flat_map split_nl
    ([(".global " ++ name)%string; (name ++ ":")%string] ++
     (if has_err_code then [] else [(TAB ++ push ++ " $0")%string]) ++
     [(TAB ++ push ++ " $" ++ str i)%string;
      (TAB ++ "jmp handleTrap" ++ NL)%string])) =
  stub_reading push name i has_err_code.
Proof.
  intros Hp Hn Hb Hc.
  assert (S1 : split_nl (".global " ++ name) = [(".global " ++ name)%string]).
  { apply split_nl_line. rewrite has_newline_app. exact Hn. }
  assert (S2 : split_nl (name ++ ":") = [(name ++ ":")%string]).
  { apply split_nl_line. rewrite has_newline_app, Hn. reflexivity. }
  assert (S4 : forall k, split_nl (TAB ++ push ++ " $" ++ str k) =
                         [(TAB ++ push ++ " $" ++ str k)%string]).
  { intros k. apply split_nl_line.
    rewrite !has_newline_app, (digits_no_newline _ (str_digits k)).
    unfold is_push in Hp. apply orb_prop in Hp.
    destruct Hp as [E|E]; apply String.eqb_eq in E; subst push; reflexivity. }
  assert (S3 : split_nl (TAB ++ push ++ " $0") = [(TAB ++ push ++ " $0")%string])
    by exact (S4 0).
  assert (P3 : parse_line (TAB ++ push ++ " $0") = Instr push "$0")
    by exact (parse_push_line push 0 Hp).
  unfold stub_reading, stub_code.
  destruct has_err_code; cbn [List.app flat_map map fst snd];
    rewrite S1, S2, ?S3, S4; cbn [List.app map];
    rewrite parse_line_global, parse_line_label, ?P3, parse_push_line by assumption;
    reflexivity.
Qed.

Lemma parse_written (p : proc) (ls : list string) (w : World) :
  writes p ls ->
  parse (written p w) = map parse_line (flat_map split_nl ls).
Proof.
  intros H. unfold parse. now rewrite (written_emit p ls w H), lines_text_of.
Qed.

Lemma vector_index_stub_code (push : string) (i : nat) (has_err_code : bool) :
  is_push push = true ->
  vector_index (stub_code push i has_err_code) = Some i.
Proof.
  intros Hp. unfold vector_index, stub_code.
  destruct has_err_code; cbn [List.app index_pos List.length Nat.sub nth_error];
    now rewrite Hp, immediate_str.
Qed.

Lemma has_padding_stub_code (push : string) (i : nat) (has_err_code : bool) :
  is_push push = true ->
  has_padding (stub_code push i has_err_code) = negb has_err_code.
Proof.
  intros Hp. unfold has_padding, stub_code, padding_at, pushes.
  destruct has_err_code;
    cbn [List.app index_pos List.length Nat.sub nth_error List.seq existsb
         Nat.eqb negb andb orb fst snd];
    rewrite ?Hp; reflexivity.
Qed.

Lemma behaviour_stub_code (push : string) (i : nat) (has_err_code : bool) :
  is_push push = true ->
  behaviour (stub_code push i has_err_code) =
  (if has_err_code then [] else [Push 0]) ++ [Push i; Jump "handleTrap"].
Proof.
  intros Hp. unfold behaviour, stub_code, action_of.
  destruct has_err_code; cbn [List.app map]; now rewrite ?Hp, immediate_str.
Qed.

Lemma code_of_stub_code (i : nat) :
  code_of i = stub_code (push_mnemonic i) i (has_hw_error_code i).
Proof. reflexivity. Qed.

Lemma well_formed_name_parts (name : string) :
  well_formed_name name = true ->
  has_newline name = false /\ starts_blank name = false /\
  ends_with_colon name = false.
Proof.
  unfold well_formed_name. intros H.
  apply andb_prop in H as [H H3]. apply andb_prop in H as [H1 H2].
  now rewrite negb_true_iff in H1, H2, H3.
Qed.

Lemma well_formed_vector_name (i : nat) :
  well_formed_name ("vector" ++ str i) = true.
Proof.
  unfold well_formed_name.
  rewrite has_newline_app, (digits_no_newline _ (str_digits i)).
  rewrite ends_with_colon_app by apply str_nonempty.
  now rewrite (digits_no_colon _ (str_digits i)).
Qed.

Lemma trap_stub_reading (i : nat) (name : string) (e : bool) :
  well_formed_name name = true ->
  map parse_line (flat_map split_nl (trap_prints (i, (name, e)))) =
  stub_reading "pushq" name i e.
Proof.
  intros H. apply well_formed_name_parts in H as (Hn & Hb & Hc).
  exact (reading_of_prints "pushq" name i e eq_refl Hn Hb Hc).
Qed.

Lemma vector_stub_reading (i : nat) :
  map parse_line (flat_map split_nl (vector_prints i)) =
  stub_reading "push" ("vector" ++ str i) i false.
Proof.
  destruct (well_formed_name_parts _ (well_formed_vector_name i))
    as (Hn & Hb & Hc).
  exact (reading_of_prints "push" ("vector" ++ str i) i false eq_refl Hn Hb Hc).
Qed.

Lemma reading_app (xs ys : list string) :
  map parse_line (flat_map split_nl (xs ++ ys)) =
  map parse_line (flat_map split_nl xs) ++
  map parse_line (flat_map split_nl ys).
Proof. now rewrite flat_map_app, map_app. Qed.

Lemma routines_stub_reading (push name : string) (i : nat) (e : bool)
      (rest : list stmt) :
  routines (stub_reading push name i e ++ rest) =
  (name, stub_code push i e) :: routines rest.
Proof. destruct e; reflexivity. Qed.

(** The routines read back from the first loop, started at index [a]. *)
Lemma trap_loop_routines (traps : list (string * bool)) (a : nat) :
  forallb (fun e => well_formed_name (fst e)) traps = true ->
  routines (map parse_line (flat_map split_nl
    (flat_map trap_prints (combine (List.seq a (List.length traps)) traps)))) =
  map (fun e : nat * (string * bool) =>
         (fst (snd e), stub_code "pushq" (fst e) (snd (snd e))))
      (combine (List.seq a (List.length traps)) traps).
Proof.
  revert a. induction traps as [|[name e] traps IH]; intros a H; [reflexivity|].
  cbn [forallb fst] in H. apply andb_prop in H as [Hname H].
  cbn [List.length List.seq combine flat_map map fst snd].
  rewrite reading_app, (trap_stub_reading a name e Hname),
    routines_stub_reading.
  f_equal. apply IH, H.
Qed.

Lemma vector_loop_routines (l : list nat) :
  routines (map parse_line (flat_map split_nl (flat_map vector_prints l))) =
  map (fun i => (("vector" ++ str i)%string, stub_code "push" i false)) l.
Proof.
  induction l as [|i l IH]; [reflexivity|].
  cbn [flat_map map].
  rewrite reading_app, vector_stub_reading, routines_stub_reading.
  now f_equal.
Qed.

Lemma parse_line_quad (name : string) :
  ends_with_colon name = false ->
  parse_line (TAB ++ ".quad " ++ name) = Directive ".quad" name.
Proof.
  intros H.
  change (parse_line (TAB ++ ".quad " ++ name))
    with (parse_line (String "." ("quad " ++ name))).
  rewrite parse_line_statement; [reflexivity | reflexivity |].
  apply label_of_ends. destruct name as [|c name]; [reflexivity|].
  change (String "." ("quad " ++ String c name))
    with (".quad " ++ String c name)%string.
  rewrite ends_with_colon_app by discriminate. exact H.
Qed.

Lemma quads_at_slots (names : list string) :
  quads_at (map (Directive ".quad") names) = names.
Proof. induction names as [|n names IH]; [reflexivity|]. cbn. now rewrite IH. Qed.

Lemma table_lines_reading (traps : list (string * bool)) :
  forallb (fun e => negb (has_newline (fst e)) && negb (ends_with_colon (fst e)))
          traps = true ->
  map parse_line (flat_map split_nl
    (flat_map (fun e : string * bool => [(TAB ++ ".quad " ++ fst e)%string]) traps)) =
  map (Directive ".quad") (map fst traps).
Proof.
  induction traps as [|[name e] traps IH]; intros H; [reflexivity|].
  cbn [forallb fst] in H. apply andb_prop in H as [Hname H].
  apply andb_prop in Hname as [Hn Hc]. rewrite negb_true_iff in Hn, Hc.
  cbn [flat_map map fst]. rewrite reading_app, (IH H).
  cbn [flat_map List.app]. rewrite split_nl_line.
  - cbn [List.app map]. now rewrite parse_line_quad.
  - now rewrite !has_newline_app, Hn.
Qed.

End ReadBack.

(** ** The loops read back *)

Section Loops.

Lemma trap_loop_writes (traps : list (string * bool)) :
  writes (trap_loop traps) (flat_map trap_prints (enumerate traps)).
Proof. apply writes_for_each, trap_stub_writes. Qed.

Lemma vector_loop_writes (lo hi : nat) :
  writes (vector_loop lo hi) (flat_map vector_prints (range lo hi)).
Proof. apply writes_for_each, vector_stub_writes. Qed.

Lemma table_loop_writes (traps : list (string * bool)) :
  writes (table_loop traps)
    (["trap_table:"] ++
     flat_map (fun e : string * bool => [(TAB ++ ".quad " ++ fst e)%string]) traps).
Proof.
  unfold table_loop. apply writes_seq; [apply writes_print|].
  apply writes_for_each. intros [name e]. apply writes_print.
Qed.

(** What the routines of the first loop are made of, entry by entry. *)
Lemma trap_routines_facts (traps : list (string * bool)) (a : nat) :
  let rs := map (fun e : nat * (string * bool) =>
                   (fst (snd e), stub_code "pushq" (fst e) (snd (snd e))))
                (combine (List.seq a (List.length traps)) traps) in
  map fst rs = map fst traps /\
  map (fun t : string * list instr => vector_index (snd t)) rs =
  map Some (List.seq a (List.length traps)) /\
  map (fun t : string * list instr => has_padding (snd t)) rs =
  map (fun e : string * bool => negb (snd e)) traps.
Proof.
  cbv zeta. revert a. induction traps as [|[name e] traps IH]; intros a.
  - repeat split.
  - destruct (IH (S a)) as (H1 & H2 & H3).
    cbn [List.length List.seq combine map fst snd].
    rewrite H1, H2, H3, (vector_index_stub_code "pushq" a e eq_refl),
      (has_padding_stub_code "pushq" a e eq_refl).
    repeat split.
Qed.

Lemma wf_table_names (traps : list (string * bool)) :
  forallb (fun e => well_formed_name (fst e)) traps = true ->
  forallb (fun e => negb (has_newline (fst e)) && negb (ends_with_colon (fst e)))
          traps = true.
Proof.
  rewrite !forallb_forall. intros H e He.
  destruct (well_formed_name_parts _ (H e He)) as (Hn & _ & Hc).
  now rewrite Hn, Hc.
Qed.

End Loops.

(** * The claims *)

(** C1: for every vector index [i] below 256 the output has a trampoline
    for [i], and any such trampoline contains a zero padding push if and
    only if the vector's error-code flag is false, that is for every index
    except 8, 10, 11, 12, 13, 14, 17, 21, 29 and 30; a padding push stands
    strictly before the push of the index, which is the instruction next to
    the jump. *)
Theorem C1_padding_iff_no_error_code (i : nat) (Hi : i < 256) :
  (exists name code, trampoline_for i name code) /\
  forall name code, trampoline_for i name code ->
    ((exists k, padding_at code k = true) <-> has_hw_error_code i = false) /\
    (has_hw_error_code i = false <->
     ~ In i [8; 10; 11; 12; 13; 14; 17; 21; 29; 30]) /\
    (exists ins, nth_error code (index_pos code) = Some ins /\
                 pushes i ins = true) /\
    (forall k, padding_at code k = true -> k < index_pos code).
Proof.
  split.
  - exists (label i), (code_of i). now apply (proj2 (trampoline_for_stub _ _ _)).
  - intros name code H. apply (proj1 (trampoline_for_stub _ _ _)) in H as (_ & -> & ->).
    repeat split.
    + intros (k & Hk). now apply padding_at_code_of in Hk.
    + intros Hf. exists 0. now apply padding_at_code_of.
    + intros Hf Hin. apply has_hw_error_code_vectors in Hin. congruence.
    + intros Hn. destruct (has_hw_error_code i) eqn:E; [|reflexivity].
      exfalso. apply Hn. now apply has_hw_error_code_vectors.
    + rewrite index_pos_code_of, code_of_flag.
      destruct (has_hw_error_code i); cbn [nth_error];
        eexists; (split; [reflexivity | apply pushes_index]).
    + intros k Hk. apply padding_at_code_of in Hk as [Hf ->].
      rewrite index_pos_code_of, Hf. lia.
Qed.

Lemma C1_witness :
  0 < 256 /\
  trampoline_for 0 "division_error"
    [("pushq", "$0"); ("pushq", "$0"); ("jmp", "handleTrap")] /\
  forall k,
    padding_at [("pushq", "$0"); ("pushq", "$0"); ("jmp", "handleTrap")] k = true ->
    k < 1.
Proof.
  assert (H0 : 0 < 256) by lia.
  assert (Ht : trampoline_for 0 "division_error"
                 [("pushq", "$0"); ("pushq", "$0"); ("jmp", "handleTrap")]).
  { apply (proj2 (trampoline_for_stub _ _ _)). repeat split. lia. }
  split; [exact H0|]. split; [exact Ht|].
  exact (proj2 (proj2 (proj2
    (proj2 (C1_padding_iff_no_error_code 0 H0) _ _ Ht)))).
Defined.

(** C2: among the indices 0..31 the table [TRAPS] gives the flag [true] to
    exactly the vectors 8, 10, 11, 12, 13, 14, 17, 21, 29 and 30; a vector
    in 32..255 has no entry in the table and its trampoline gets the zero
    padding push, as a vector without hardware error code does. *)
Theorem C2_classification (i : nat) (Hi : i < 256) :
  (has_hw_error_code i = true <->
   In i [8; 10; 11; 12; 13; 14; 17; 21; 29; 30]) /\
  (i < 32 ->
   exists name, nth_error TRAPS i = Some (name, has_hw_error_code i)) /\
  (32 <= i ->
   nth_error TRAPS i = None /\
   (exists name code, trampoline_for i name code) /\
   forall name code, trampoline_for i name code -> has_padding code = true).
Proof.
  split; [apply has_hw_error_code_vectors|]. split.
  - intros Hlt. exists (label i). now apply nth_error_TRAPS.
  - intros Hge.
    assert (E : nth_error TRAPS i = None) by now apply nth_error_None.
    split; [exact E|]. split.
    + exists (label i), (code_of i). now apply (proj2 (trampoline_for_stub _ _ _)).
    + intros name code H. apply (proj1 (trampoline_for_stub _ _ _)) in H as (_ & -> & ->).
      rewrite code_of_flag. unfold has_hw_error_code. rewrite E.
      unfold has_padding. cbn [List.length List.seq existsb].
      replace (padding_at _ 0) with true; [reflexivity|].
      symmetry. unfold padding_at. cbn [index_pos List.length Nat.sub Nat.eqb negb
                                         nth_error andb].
      apply pushes_zero.
Qed.

Lemma C2_witness :
  200 < 256 /\ 32 <= 200 /\
  trampoline_for 200 "vector200"
    [("push", "$0"); ("push", "$200"); ("jmp", "handleTrap")] /\
  has_padding [("push", "$0"); ("push", "$200"); ("jmp", "handleTrap")] = true.
Proof.
  assert (H1 : 200 < 256) by lia.
  assert (H2 : 32 <= 200) by lia.
  assert (Ht : trampoline_for 200 "vector200"
                 [("push", "$0"); ("push", "$200"); ("jmp", "handleTrap")]).
  { apply (proj2 (trampoline_for_stub _ _ _)). repeat split. lia. }
  split; [exact H1|]. split; [exact H2|]. split; [exact Ht|].
  exact (proj2 (proj2 (proj2 (proj2 (C2_classification 200 H1)) H2)) _ _ Ht).
Defined.

(** C3: the dispatch table has exactly 256 entries, and for every [i] below
    256 the entry at position [i] is the name of the trampoline of vector
    [i]: every trampoline under that name has index [i], and the name is at
    no other position of the table. *)
Theorem C3_table_positions :
  List.length trap_table = 256 /\
  forall i, i < 256 ->
    exists name code,
      nth_error trap_table i = Some name /\
      trampoline_for i name code /\
      (forall code', In (name, code') trampolines -> code' = code) /\
      (forall j, nth_error trap_table j = Some name -> j = i).
Proof.
  split.
  - now rewrite trap_table_labels, length_map, length_seq.
  - intros i Hi. exists (label i), (code_of i).
    split; [|split; [|split]].
    + rewrite trap_table_labels. now apply nth_error_map_seq.
    + now apply (proj2 (trampoline_for_stub _ _ _)).
    + intros code' H. apply (proj1 (in_trampolines _ _)) in H as (j & _ & E & ->).
      now rewrite (label_inj _ _ E).
    + intros j H. rewrite trap_table_labels in H.
      apply nth_error_map_seq_inv in H as [_ E]. symmetry. now apply label_inj.
Qed.

Lemma C3_witness :
  200 < 256 /\ nth_error trap_table 200 = Some "vector200" /\
  exists code, trampoline_for 200 "vector200" code.
Proof.
  assert (H : 200 < 256) by lia.
  split; [exact H|].
  destruct (proj2 C3_table_positions 200 H) as (name & code & Hn & Ht & _).
  assert (E : name = "vector200").
  { rewrite trap_table_labels, nth_error_map_seq in Hn by exact H.
    now injection Hn as <-. }
  rewrite E in Hn, Ht. split; [exact Hn | now exists code].
Defined.

(** C4: the output has 256 trampolines, exactly one for each index below
    256; their names are pairwise distinct, and so are all the labels of
    the output, the hand-written ones and the ones made from an index
    alike. *)
Theorem C4_one_trampoline_per_index :
  List.length trampolines = 256 /\
  NoDup (map fst trampolines) /\
  NoDup (labels asm) /\
  forall i, i < 256 ->
    List.length (filter (has_index i) trampolines) = 1.
Proof.
  split; [|split; [|split]].
  - now rewrite trampolines_stubs, length_map, length_seq.
  - rewrite trampolines_stubs, map_map. cbn [stub fst].
    apply NoDup_map_seq, label_inj.
  - rewrite asm_program. apply nodupb_NoDup. vm_compute. reflexivity.
  - intros i Hi. rewrite trampolines_stubs, count_stubs.
    destruct (Nat.ltb_spec i (0 + 256)); [reflexivity | lia].
Qed.

Lemma C4_witness :
  14 < 256 /\ List.length (filter (has_index 14) trampolines) = 1.
Proof.
  assert (H : 14 < 256) by lia.
  split; [exact H|].
  exact (proj2 (proj2 (proj2 C4_one_trampoline_per_index)) 14 H).
Defined.

(** C5: each of the 256 trampolines ends in a [jmp] (a jump, not a call) to
    [handleTrap], the one symbol the output declares external. *)
Theorem C5_jump_to_dispatch :
  List.length trampolines = 256 /\
  declared ".extern" asm = ["handleTrap"] /\
  forall name code,
    In (name, code) trampolines ->
    transfer code = Some ("jmp", "handleTrap") /\
    jump_pos code = S (index_pos code).
Proof.
  split; [|split].
  - now rewrite trampolines_stubs, length_map, length_seq.
  - rewrite asm_program. vm_compute. reflexivity.
  - intros name code H. apply (proj1 (in_trampolines _ _)) in H as (i & _ & _ & ->). split.
    + apply transfer_code_of.
    + rewrite code_of_flag. now destruct (has_hw_error_code i).
Qed.

Lemma C5_witness :
  In ("nmi", [("pushq", "$0"); ("pushq", "$2"); ("jmp", "handleTrap")])
     trampolines /\
  transfer [("pushq", "$0"); ("pushq", "$2"); ("jmp", "handleTrap")] =
  Some ("jmp", "handleTrap").
Proof.
  assert (Hin : In ("nmi", [("pushq", "$0"); ("pushq", "$2"); ("jmp", "handleTrap")])
                   trampolines).
  { apply (proj2 (in_trampolines _ _)). exists 2. repeat split. lia. }
  split; [exact Hin|].
  exact (proj1 (proj2 (proj2 C5_jump_to_dispatch) _ _ Hin)).
Defined.

(** C6, as the claim states it, fails: vectors 0 and 32 both have a false
    flag, yet no template gives the text of both, since the first loop
    writes [pushq] where the second writes [push]. *)
Lemma C6_counterexample :
  0 < 256 /\ 32 < 256 /\
  has_hw_error_code 0 = has_hw_error_code 32 /\
  ~ same_after_substitution 0 32.
Proof.
  split; [lia|]. split; [lia|]. split; [reflexivity|].
  intros (t & H0 & H32).
  destruct t as [|l1 [|l2 [|l3 t]]]; try discriminate H0.
  change (stub_prints 0) with
    [".global division_error"; "division_error:"; (TAB ++ "pushq $0")%string;
     (TAB ++ "pushq $0")%string; (TAB ++ "jmp handleTrap" ++ NL)%string] in H0.
  change (stub_prints 32) with
    [".global vector32"; "vector32:"; (TAB ++ "push $0")%string;
     (TAB ++ "push $32")%string; (TAB ++ "jmp handleTrap" ++ NL)%string] in H32.
  cbn [fill map] in H0, H32.
  injection H0 as _ _ E0 _. injection H32 as _ _ E32 _.
  apply (f_equal String.length) in E0, E32.
  rewrite fill_line_length in E0, E32.
  change (String.length (label 0)) with 14 in E0.
  change (String.length (label 32)) with 8 in E32.
  change (String.length (str 0)) with 1 in E0.
  change (String.length (str 32)) with 2 in E32.
  cbn in E0, E32. lia.
Qed.

(** C6, amended: the text of every vector below 256 is an instance of the
    one template, up to the spelling of the push instruction, [pushq] for
    the vectors 0..31 and [push] for 32..255; two vectors of the same range
    with equal flags have the same text after substitution of name and
    index. *)
Theorem C6_template_up_to_mnemonic (i : nat) (Hi : i < 256) :
  stub_prints i =
  fill (label i) (str i) (spec_template (push_mnemonic i) (has_hw_error_code i)) /\
  push_mnemonic i = (if (i <? 32)%nat then "pushq" else "push") /\
  forall j, j < 256 ->
    has_hw_error_code i = has_hw_error_code j ->
    (i < 32 <-> j < 32) ->
    same_after_substitution i j.
Proof.
  split; [apply stub_prints_template|].
  split; [apply push_mnemonic_range|].
  intros j Hj Hf Hr.
  exists (spec_template (push_mnemonic i) (has_hw_error_code i)).
  split; [apply stub_prints_template|].
  rewrite Hf, (push_mnemonic_range i), stub_prints_template, push_mnemonic_range.
  destruct (Nat.ltb_spec i 32), (Nat.ltb_spec j 32); (reflexivity || lia).
Qed.

Lemma C6_witness :
  0 < 256 /\ 1 < 256 /\ has_hw_error_code 0 = has_hw_error_code 1 /\
  (0 < 32 <-> 1 < 32) /\ same_after_substitution 0 1.
Proof.
  assert (H0 : 0 < 256) by lia.
  assert (H1 : 1 < 256) by lia.
  assert (Hf : has_hw_error_code 0 = has_hw_error_code 1) by reflexivity.
  assert (Hr : 0 < 32 <-> 1 < 32) by lia.
  split; [exact H0|]. split; [exact H1|]. split; [exact Hf|]. split; [exact Hr|].
  exact (proj2 (proj2 (C6_template_up_to_mnemonic 0 H0)) 1 H1 Hf Hr).
Defined.

(** C7: the concrete scenario.  The only trampoline of vector 14 is
    [page_fault], with one stack push, of 14, before its jump and no
    padding push; the one of vector 0 pushes zero, pushes 0 and jumps; the
    one of vector 200 is called [vector200], pushes zero, pushes 200 and
    jumps, and entry 200 of the dispatch table names it. *)
Theorem C7_scenario :
  let page_fault := [("pushq", "$14"); ("jmp", "handleTrap")] in
  let division_error :=
    [("pushq", "$0"); ("pushq", "$0"); ("jmp", "handleTrap")] in
  let vector200 := [("push", "$0"); ("push", "$200"); ("jmp", "handleTrap")] in
  (filter (has_index 14) trampolines = [("page_fault", page_fault)] /\
   has_hw_error_code 14 = true /\
   behaviour page_fault = [Push 14; Jump "handleTrap"] /\
   List.length (stack_pushes page_fault) = 1 /\
   has_padding page_fault = false) /\
  (filter (has_index 0) trampolines = [("division_error", division_error)] /\
   has_hw_error_code 0 = false /\
   behaviour division_error = [Push 0; Push 0; Jump "handleTrap"] /\
   padding_at division_error 0 = true /\ index_pos division_error = 1) /\
  (filter (has_index 200) trampolines = [("vector200", vector200)] /\
   ("vector200" = "vector" ++ str 200)%string /\
   has_hw_error_code 200 = false /\
   behaviour vector200 = [Push 0; Push 200; Jump "handleTrap"] /\
   padding_at vector200 0 = true /\ index_pos vector200 = 1 /\
   nth_error trap_table 200 = Some "vector200").
Proof.
  cbv zeta. rewrite trampolines_stubs, trap_table_labels.
  repeat split; vm_compute; reflexivity.
Qed.

(** C8: the output declares [handleTrap] external, once, and never defines
    it; it declares global the 256 trampoline entry points and the table
    symbol, each once; the data section holds the one label [trap_table]
    followed by 256 [.quad] slots of 8 bytes that name the trampolines in
    the order of their indices 0..255. *)
Theorem C8_symbols :
  declared ".extern" asm = ["handleTrap"] /\
  ~ In "handleTrap" (labels asm) /\
  List.length trampolines = 256 /\
  declared ".global" asm = map fst trampolines ++ ["trap_table"] /\
  labels asm = map fst trampolines ++ ["trap_table"] /\
  data_section =
    Directive ".global" "trap_table" :: Label "trap_table" ::
    map (Directive ".quad") trap_table /\
  slot_bytes ".quad" = 8 /\
  List.length trap_table = 256 /\
  trap_table = map fst trampolines /\
  map (fun t : string * list instr => vector_index (snd t)) trampolines =
  map Some (List.seq 0 256).
Proof.
  assert (L : labels asm = map fst trampolines ++ ["trap_table"]).
  { rewrite names_of_trampolines, asm_program. vm_compute. reflexivity. }
  split; [rewrite asm_program; vm_compute; reflexivity|].
  split.
  { rewrite L, names_of_trampolines. apply not_in_existsb.
    vm_compute. reflexivity. }
  split; [now rewrite trampolines_stubs, length_map, length_seq|].
  split.
  { rewrite names_of_trampolines, asm_program. vm_compute. reflexivity. }
  split; [exact L|].
  split.
  { rewrite data_section_stmts, trap_table_labels, map_map. reflexivity. }
  split; [reflexivity|].
  split; [now rewrite trap_table_labels, length_map, length_seq|].
  split; [exact (eq_trans trap_table_labels (eq_sym names_of_trampolines))|].
  apply indices_in_order.
Qed.

(** C9: [main] reads nothing of the world it runs in: whatever the
    arguments, the environment and the stream so far, it appends the same
    text to the stream, so two runs write the same bytes. *)
Theorem C9_deterministic (w1 w2 : World) :
  written main w1 = written main w2 /\
  stdout (main w1) = (stdout w1 ++ written main w1)%string /\
  stdout (main w2) = (stdout w2 ++ written main w2)%string /\
  written main w1 = output.
Proof.
  rewrite !(written_emit main printed) by apply main_writes.
  rewrite !main_writes, output_printed. unfold emit. cbn [stdout].
  repeat split; reflexivity.
Qed.

(** C10: the output is the code section followed by the data section; the
    trampolines are the routines of the code section and stand there in the
    order of their indices 0, 1, ..., 255; the label [trap_table] is in the
    data section, and every name in the table is a label of the code
    section before it. *)
Theorem C10_layout :
  asm = Directive ".section" ".text" :: text_section ++
        Directive ".section" ".data" :: data_section /\
  sections asm = [(".text", text_section); (".data", data_section)] /\
  trampolines = routines text_section /\
  labels text_section = map fst trampolines /\
  map (fun t : string * list instr => vector_index (snd t)) trampolines =
  map Some (List.seq 0 256) /\
  StronglySorted lt (List.seq 0 256) /\
  labels data_section = ["trap_table"] /\
  incl trap_table (labels text_section).
Proof.
  assert (T : labels text_section = map fst trampolines).
  { rewrite names_of_trampolines, text_section_stmts. vm_compute. reflexivity. }
  split.
  { rewrite text_section_stmts, data_section_stmts. apply asm_program. }
  split.
  { rewrite text_section_stmts, data_section_stmts, asm_program.
    vm_compute. reflexivity. }
  split; [reflexivity|].
  split; [exact T|].
  split; [apply indices_in_order|].
  split; [apply seq_increasing|].
  split; [rewrite data_section_stmts; vm_compute; reflexivity|].
  rewrite T, names_of_trampolines, trap_table_labels. apply incl_refl.
Qed.

(** * Further properties of the loop bodies and of the loops *)

(** X1: the operand written for an index reads back as that index, for
    every index: [f"{i}"] is a non-empty string of decimal digits, and the
    immediate made of a dollar sign and these digits has the value [i]. *)
Theorem X1_index_round_trip (i : nat) :
  immediate ("$" ++ str i) = Some i /\
  all_digits (str i) = true /\
  1 <= String.length (str i).
Proof.
  split; [apply immediate_str|]. split; [apply str_digits|].
  pose proof (str_nonempty i) as H.
  destruct (str i); [contradiction | cbn; lia].
Qed.

(** X2: the entry-point names never collide, whatever the two indices, also
    past 255: equal names mean equal indices, and no label of [TRAPS] is
    the word [vector] followed by the digits of any index. *)
Theorem X2_names_never_collide (i j : nat) :
  (label i = label j -> i = j) /\
  (i < 32 -> (label i =? "vector" ++ str j)%string = false).
Proof.
  split; [apply label_inj|].
  intros Hi. apply String.eqb_neq. intros E.
  pose proof (trap_label_not_vector i Hi) as P.
  rewrite E, prefix_vector in P. discriminate P.
Qed.

Lemma X2_witness :
  label 14 = label 14 /\ 14 < 32 /\
  ("page_fault" =? "vector" ++ str 14)%string = false.
Proof.
  assert (E : label 14 = label 14) by reflexivity.
  assert (H : 14 < 32) by lia.
  assert (R : 14 = 14) by exact (proj1 (X2_names_never_collide 14 14) E).
  split; [exact E|]. split; [exact H|].
  exact (proj2 (X2_names_never_collide 14 14) H).
Defined.

(** X3: the body of the first loop, for any index, any well-formed name
    and either flag: what it prints reads back as the directive [.global],
    the label, the pushes, the jump and a blank line, that is one routine
    under that name, which pushes the index next to its jump to
    [handleTrap] and has a padding push exactly when the flag is false. *)
Theorem X3_trap_stub_reads_back
  (i : nat) (name : string) (has_err_code : bool) (w : World) :
  well_formed_name name = true ->
  let text := written (trap_stub (i, (name, has_err_code))) w in
  let code := stub_code "pushq" i has_err_code in
  parse text = stub_reading "pushq" name i has_err_code /\
  routines (parse text) = [(name, code)] /\
  vector_index code = Some i /\
  has_padding code = negb has_err_code /\
  transfer code = Some ("jmp", "handleTrap").
Proof.
  intros H. cbv zeta.
  rewrite (parse_written _ _ w (trap_stub_writes (i, (name, has_err_code)))),
    (trap_stub_reading i name has_err_code H).
  split; [reflexivity|].
  split; [now destruct has_err_code|].
  split; [now apply vector_index_stub_code|].
  split; [now apply has_padding_stub_code|].
  now destruct has_err_code.
Qed.

Lemma X3_witness :
  well_formed_name "page_fault" = true /\
  routines (parse (written (trap_stub (14, ("page_fault", true))) initial_world)) =
  [("page_fault", stub_code "pushq" 14 true)].
Proof.
  assert (H : well_formed_name "page_fault" = true) by reflexivity.
  split; [exact H|].
  exact (proj1 (proj2
    (X3_trap_stub_reads_back 14 "page_fault" true initial_world H))).
Defined.

(** X4: the body of the second loop, for any index, also outside 32..255:
    what it prints reads back as one routine called [vector] followed by
    the digits of the index, which pushes zero, pushes the index and jumps
    to [handleTrap]; the name is well formed. *)
Theorem X4_vector_stub_reads_back (i : nat) (w : World) :
  let text := written (vector_stub i) w in
  let name := ("vector" ++ str i)%string in
  let code := stub_code "push" i false in
  well_formed_name name = true /\
  parse text = stub_reading "push" name i false /\
  routines (parse text) = [(name, code)] /\
  vector_index code = Some i /\
  behaviour code = [Push 0; Push i; Jump "handleTrap"].
Proof.
  cbv zeta.
  rewrite (parse_written _ _ w (vector_stub_writes i)), vector_stub_reading.
  split; [apply well_formed_vector_name|].
  split; [reflexivity|]. split; [reflexivity|].
  split; [now apply vector_index_stub_code|].
  exact (behaviour_stub_code "push" i false eq_refl).
Qed.

(** X5: every vector reaches [handleTrap] with the same two words on top of
    the interrupt frame.  Started on the stack the processor leaves (the
    frame, and the error code on top of it for a vector that has one), the
    trampoline of vector [i] ends in the jump to [handleTrap] with the
    index on top and below it the error code, the hardware's or the zero
    that stands in for it. *)
Theorem X5_uniform_frame
  (i : nat) (name : string) (code : list instr) (ec : nat) (frame : list nat) :
  trampoline_for i name code ->
  run (behaviour code) (entry_stack (has_hw_error_code i) ec frame) =
  Some ("handleTrap", i :: (if has_hw_error_code i then ec else 0) :: frame).
Proof.
  intros H. apply (proj1 (trampoline_for_stub _ _ _)) in H as (_ & _ & ->).
  rewrite code_of_stub_code, behaviour_stub_code by apply is_push_mnemonic.
  now destruct (has_hw_error_code i).
Qed.

Lemma X5_witness :
  trampoline_for 14 "page_fault" [("pushq", "$14"); ("jmp", "handleTrap")] /\
  run (behaviour [("pushq", "$14"); ("jmp", "handleTrap")]) [7; 1; 2; 3] =
  Some ("handleTrap", [14; 7; 1; 2; 3]).
Proof.
  assert (Ht : trampoline_for 14 "page_fault"
                 [("pushq", "$14"); ("jmp", "handleTrap")]).
  { apply (proj2 (trampoline_for_stub _ _ _)). repeat split. lia. }
  split; [exact Ht|].
  exact (X5_uniform_frame 14 "page_fault" _ 7 [1; 2; 3] Ht).
Defined.

(** X6: the loop that writes the table, for any table with well-formed
    names: what it prints reads back as the label [trap_table] followed by
    one [.quad] slot for each entry, and the slots stored at [trap_table]
    are the names of the table in its order. *)
Theorem X6_table_round_trip (traps : list (string * bool)) (w : World) :
  forallb (fun e => well_formed_name (fst e)) traps = true ->
  let text := written (table_loop traps) w in
  parse text = Label "trap_table" :: map (Directive ".quad") (map fst traps) /\
  slots_at "trap_table" (parse text) = map fst traps.
Proof.
  intros H. cbv zeta.
  rewrite (parse_written _ _ w (table_loop_writes traps)), reading_app,
    (table_lines_reading traps (wf_table_names traps H)).
  split; [reflexivity|].
  unfold slots_at. cbn. now rewrite quads_at_slots.
Qed.

Lemma X6_witness :
  forallb (fun e => well_formed_name (fst e)) TRAPS = true /\
  slots_at "trap_table" (parse (written (table_loop TRAPS) initial_world)) =
  map fst TRAPS.
Proof.
  assert (H : forallb (fun e => well_formed_name (fst e)) TRAPS = true)
    by reflexivity.
  split; [exact H|].
  exact (proj2 (X6_table_round_trip TRAPS initial_world H)).
Defined.

(** X7: the first loop, for any table with well-formed names: it writes
    one routine for each entry, in the order of the table and under the
    name of the entry; the routine of the entry at position [k] pushes [k]
    as its index, and has a padding push exactly when the flag of the entry
    is false. *)
Theorem X7_trap_loop_positions (traps : list (string * bool)) (w : World) :
  forallb (fun e => well_formed_name (fst e)) traps = true ->
  let rs := routines (parse (written (trap_loop traps) w)) in
  map fst rs = map fst traps /\
  map (fun t : string * list instr => vector_index (snd t)) rs =
  map Some (List.seq 0 (List.length traps)) /\
  map (fun t : string * list instr => has_padding (snd t)) rs =
  map (fun e : string * bool => negb (snd e)) traps.
Proof.
  intros H. cbv zeta.
  rewrite (parse_written _ _ w (trap_loop_writes traps)).
  unfold enumerate. rewrite (trap_loop_routines traps 0 H).
  exact (trap_routines_facts traps 0).
Qed.

Lemma X7_witness :
  forallb (fun e => well_formed_name (fst e)) TRAPS = true /\
  map fst (routines (parse (written (trap_loop TRAPS) initial_world))) =
  map fst TRAPS.
Proof.
  assert (H : forallb (fun e => well_formed_name (fst e)) TRAPS = true)
    by reflexivity.
  split; [exact H|].
  exact (proj1 (X7_trap_loop_positions TRAPS initial_world H)).
Defined.

(** X8: the second loop, for any bounds: it writes one routine for each
    index from [lo] up to [hi], none when [hi] is not above [lo], in
    increasing order; the routine of [i] is called [vector] followed by the
    digits of [i] and pushes [i] as its index, and the names are pairwise
    distinct. *)
Theorem X8_vector_loop_range (lo hi : nat) (w : World) :
  let rs := routines (parse (written (vector_loop lo hi) w)) in
  List.length rs = hi - lo /\
  map fst rs = map (fun i => ("vector" ++ str i)%string) (List.seq lo (hi - lo)) /\
  map (fun t : string * list instr => vector_index (snd t)) rs =
  map Some (List.seq lo (hi - lo)) /\
  NoDup (map fst rs).
Proof.
  cbv zeta.
  rewrite (parse_written _ _ w (vector_loop_writes lo hi)), vector_loop_routines.
  unfold range. rewrite !map_map, length_map, length_seq. cbn [fst snd].
  split; [reflexivity|]. split; [reflexivity|]. split.
  - apply map_ext. intros i. exact (vector_index_stub_code "push" i false eq_refl).
  - apply NoDup_map_seq, vector_name_inj.
Qed.
